(** * Log-option payoff curve: sample grids, piecewise payoff and tick marks

    A shallow embedding of [log-option_payoff.py].  The script builds three
    sample grids with [np.linspace], evaluates the piecewise payoff
    (zero / linear with slope [1/e] / natural logarithm) on them, and fixes
    the axis limits and tick marks of the figure.

    Arithmetic model: NumPy's [float64] arrays are read as lists of exact
    real numbers ([R] of the Standard Library), so every statement below is
    a statement of exact arithmetic; rounding is outside the model.  The
    tick marks only involve integers and halves and are computed in [Z]
    and [Q]. *)

From Stdlib Require Import Reals Lra Lia List ZArith QArith Qround Bool.
From Stdlib Require Lqa.
Import ListNotations.

Local Open Scope R_scope.

(** ** NumPy primitives used by the script *)

Module Numpy.

(** [y[-1] = stop]: overwrite the last cell of a non-empty array. *)
Definition set_last (y : list R) (v : R) : list R :=
  match y with
  | [] => []
  | _ :: _ => removelast y ++ [v]
  end.

(** Modelled from the spec: [np.linspace] is NumPy library code and is not
    part of the repository's sources.  The definition follows the
    [generate_domain] contract (an ordered sequence of [num] numbers evenly
    spaced from [start] to [stop], the right end included or not per the
    flag) in the way NumPy realises it:
    [div = num - 1 if endpoint else num], [step = (stop - start) / div],
    [y = arange(0, num) * step + start] (with [y / div * delta] when the
    step is zero, and [y * delta] when [div] is not positive), and finally
    [y[-1] = stop] when [endpoint and num > 1]. *)
Definition linspace (start stop : R) (num : nat) (endpoint : bool) : list R :=
  let div := if endpoint then (num - 1)%nat else num in
  let delta := stop - start in
  let y := map INR (seq 0 num) in
  let y :=
    if (0 <? div)%nat then
      let step := delta / INR div in
      if Req_dec_T step 0
      then map (fun t => t / INR div * delta) y
      else map (fun t => t * step) y
    else map (fun t => t * delta) y in
  let y := map (fun t => t + start) y in
  if endpoint && (1 <? num)%nat then set_last y stop else y.

(** Modelled from the spec: [np.zeros_like] is NumPy library code, not part
    of the repository's sources; the ZERO rule gives an array of zeros of
    the shape of [x]. *)
Definition zeros_like (x : list R) : list R := repeat 0 (length x).

(** The floating-point error conditions of [np.log]: "divide by zero" at 0
    and "invalid value" below 0. *)
Inductive fperr : Set := divide | invalid.

(** Modelled from the spec: [np.log] is NumPy library code, not part of the
    repository's sources; the LOG rule on one cell is the natural logarithm
    on a positive input and an error on an input [<= 0]. *)
Definition log1 (x : R) : fperr + R :=
  if Rlt_dec 0 x then inr (ln x)
  else if Req_dec_T x 0 then inl divide else inl invalid.

(** [np.log(x)], elementwise. *)
Definition log (x : list R) : list (fperr + R) := map log1 x.

(** Modelled from the spec: [np.arange] is NumPy library code, not part of
    the repository's sources; ticks are generated from [start] in steps of
    [step] up to but not including [stop], that is
    [ceil((stop - start) / step)] values [start + i * step], here on
    rationals kept in lowest terms; a zero step is an error. *)
Definition arange_Q (start stop step : Q) : option (list Q) :=
  if Qeq_bool step 0 then None
  else
    let len := Z.to_nat (Qceiling ((stop - start) / step)) in
    Some (map (fun i => Qred (start + inject_Z (Z.of_nat i) * step)%Q)
              (seq 0 len)).

(** Modelled from the spec: the same [np.arange] on integers. *)
Definition arange (start stop step : Z) : option (list Z) :=
  if (step =? 0)%Z then None
  else
    let len := Z.to_nat (Qceiling (inject_Z (stop - start) / inject_Z step)) in
    Some (map (fun i => (start + Z.of_nat i * step)%Z) (seq 0 len)).

End Numpy.

(** ** The script *)

(** [e = np.e] *)
Definition e : R := exp 1.

(** [x1 = np.linspace(-20, 0, 400)] *)
Definition x1 : list R := Numpy.linspace (-20) 0 400 true.
(** [x2 = np.linspace(0, e, 200, endpoint=False)] *)
Definition x2 : list R := Numpy.linspace 0 e 200 false.
(** [x3 = np.linspace(e, 20, 300)] *)
Definition x3 : list R := Numpy.linspace e 20 300 true.

(** [y1 = np.zeros_like(x1)] *)
Definition y1 : list R := Numpy.zeros_like x1.
(** One cell of [(1/e) * x]. *)
Definition linear (x : R) : R := 1 / e * x.
(** [y2 = (1/e) * x2] *)
Definition y2 : list R := map linear x2.
(** [y3 = np.log(x3)] *)
Definition y3 : list (Numpy.fperr + R) := Numpy.log x3.

(** [plt.xlim(-20, 20)] and [plt.ylim(-5, 5)] *)
Definition xlim : Z * Z := ((-20)%Z, 20%Z).
Definition ylim : Z * Z := ((-5)%Z, 5%Z).

(** [plt.xticks(np.arange(-20, 21, 2))] *)
Definition xticks : option (list Z) := Numpy.arange (-20) 21 2.
(** [plt.yticks(np.arange(-5, 5, 0.5))] *)
Definition yticks : option (list Q) := Numpy.arange_Q (-5) 5 (1 # 2).

(** The three plotted curves in left-to-right order,
    [plt.plot(x1, y1); plt.plot(x2, y2); plt.plot(x3, y3)],
    read as one sequence of payoff values. *)
Definition payoff : list (Numpy.fperr + R) :=
  map inr y1 ++ map inr y2 ++ y3.

(** The payoff the comments on the grid lines state:
    [f(x) = 0 for x < 0], [f(x) = (1/e)x for 0 <= x < e],
    [f(x) = ln(x) for x >= e]. *)
Definition f (x : R) : R :=
  if Rlt_dec x 0 then 0
  else if Rlt_dec x e then 1 / e * x
  else ln x.

(** [plt.axhline(0, ...)] and [plt.axvline(0, ...)]: the positions of the
    two reference lines. *)
Definition axhline : Z := 0%Z.
Definition axvline : Z := 0%Z.

(** ** Vocabulary of the properties *)

(** The rational [a / 2^k]. *)
Definition dyadic (a : Z) (k : nat) : Q :=
  (inject_Z a / inject_Z (2 ^ Z.of_nat k))%Q.

Definition increasing (l : list R) : Prop :=
  forall i j, (i < j < length l)%nat -> nth i l 0 < nth j l 0.

Definition nondecreasing (l : list R) : Prop :=
  forall i j, (i <= j < length l)%nat -> nth i l 0 <= nth j l 0.

(** The divisor NumPy uses for the step. *)
Definition divisor (num : nat) (endpoint : bool) : nat :=
  if endpoint then (num - 1)%nat else num.

(** The [generate_domain] contract as the specification words it: [num]
    numbers, evenly spaced from [a], non-decreasing (increasing when
    [a < b]), starting at [a] exactly, and reaching [b] when the flag includes the right end or
    staying below [b] when it excludes it. *)
Definition generate_domain_contract
    (a b : R) (num : nat) (endpoint : bool) (l : list R) : Prop :=
  length l = num /\
  (forall i, (i < num)%nat ->
     nth i l 0 = a + INR i * ((b - a) / INR (divisor num endpoint))) /\
  nondecreasing l /\
  (a < b -> increasing l) /\
  nth 0 l 0 = a /\
  (if endpoint then last l a = b else a < b -> forall x, In x l -> x < b).

(** The contract as NumPy realises it: the right end is reached only when
    there are at least two samples; a single sample is [a] itself. *)
Definition generate_domain_contract_numpy
    (a b : R) (num : nat) (endpoint : bool) (l : list R) : Prop :=
  length l = num /\
  (forall i, (i < num)%nat ->
     nth i l 0 = a + INR i * ((b - a) / INR (divisor num endpoint))) /\
  nondecreasing l /\
  (a < b -> increasing l) /\
  nth 0 l 0 = a /\
  (if endpoint
   then ((2 <= num)%nat -> last l a = b) /\ (num = 1%nat -> l = [a])
   else a < b -> forall x, In x l -> x < b).

(** ** Lists built from [seq] *)

Section ListFacts.

Context {A : Type}.

Lemma nth_map_seq (f : nat -> A) (n i : nat) (d : A) :
  (i < n)%nat -> nth i (map f (seq 0 n)) d = f i.
Proof.
  intros Hi.
  rewrite (nth_indep _ d (f 0%nat)) by (rewrite length_map, length_seq; exact Hi).
  rewrite map_nth, seq_nth by exact Hi.
  reflexivity.
Qed.

Lemma In_nth_lt (l : list A) (d : A) (P : A -> Prop) :
  (forall i, (i < length l)%nat -> P (nth i l d)) ->
  forall x, In x l -> P x.
Proof.
  intros H x Hx.
  destruct (In_nth l x d Hx) as (i & Hi & <-).
  apply H, Hi.
Qed.

End ListFacts.

Lemma removelast_length (y : list R) :
  length (removelast y) = (length y - 1)%nat.
Proof.
  rewrite removelast_firstn_len, length_firstn. lia.
Qed.

Lemma removelast_nth (y : list R) (i : nat) :
  (i < length y - 1)%nat -> nth i (removelast y) 0 = nth i y 0.
Proof.
  revert i. induction y as [|u y IH]; intros i Hi; [simpl in Hi; lia|].
  destruct y as [|w y]; [simpl in Hi; lia|].
  destruct i as [|i]; [reflexivity|].
  change (nth i (removelast (w :: y)) 0 = nth i (w :: y) 0).
  apply IH. simpl in Hi |- *. lia.
Qed.

Lemma set_last_length (y : list R) (v : R) :
  length (Numpy.set_last y v) = length y.
Proof.
  destruct y as [|t y]; [reflexivity|].
  unfold Numpy.set_last.
  rewrite length_app, removelast_length. simpl. lia.
Qed.

Lemma set_last_nth (y : list R) (v : R) (i : nat) :
  (i < length y)%nat ->
  nth i (Numpy.set_last y v) 0 =
  if (i =? length y - 1)%nat then v else nth i y 0.
Proof.
  intros Hi.
  destruct y as [|t y]; [simpl in Hi; lia|].
  unfold Numpy.set_last.
  destruct (Nat.eqb_spec i (length (t :: y) - 1)) as [->|Hne].
  - rewrite app_nth2 by (rewrite removelast_length; lia).
    rewrite removelast_length, Nat.sub_diag. reflexivity.
  - rewrite app_nth1 by (rewrite removelast_length; lia).
    apply removelast_nth. lia.
Qed.

Lemma set_last_last (y : list R) (v d : R) :
  y <> [] -> last (Numpy.set_last y v) d = v.
Proof.
  destruct y as [|t y]; [congruence|]. intros _.
  unfold Numpy.set_last. apply last_last.
Qed.

(** ** The closed form of [linspace] *)

Lemma linspace_length (a b : R) (num : nat) (endpoint : bool) :
  length (Numpy.linspace a b num endpoint) = num.
Proof.
  unfold Numpy.linspace.
  assert (H : forall f : R -> R,
             length (map (fun t => t + a) (map f (map INR (seq 0 num)))) = num)
    by (intros f; rewrite !length_map; apply length_seq).
  destruct (endpoint && (1 <? num)%nat);
    rewrite ?set_last_length;
    destruct (0 <? divisor num endpoint)%nat eqn:Hd; unfold divisor in Hd;
    rewrite Hd; try destruct (Req_dec_T _ _); apply H.
Qed.

(** Before the last cell is overwritten, cell [i] holds
    [a + i * ((b - a) / div)]. *)
Lemma linspace_cells (a b : R) (num : nat) (endpoint : bool) (i : nat) :
  (i < num)%nat ->
  let div := if endpoint then (num - 1)%nat else num in
  nth i
    (map (fun t => t + a)
       (if (0 <? div)%nat
        then if Req_dec_T ((b - a) / INR div) 0
             then map (fun t => t / INR div * (b - a)) (map INR (seq 0 num))
             else map (fun t => t * ((b - a) / INR div)) (map INR (seq 0 num))
        else map (fun t => t * (b - a)) (map INR (seq 0 num)))) 0
  = a + INR i * ((b - a) / INR (divisor num endpoint)).
Proof.
  intros Hi div. fold (divisor num endpoint) in div. subst div.
  destruct (Nat.ltb_spec 0 (divisor num endpoint)) as [Hd|Hd].
  - assert (HR : INR (divisor num endpoint) <> 0) by (apply not_0_INR; lia).
    destruct (Req_dec_T _ _) as [Hz|Hz];
      rewrite !map_map, nth_map_seq by exact Hi.
    + rewrite Hz. unfold Rdiv in Hz.
      apply Rmult_integral in Hz. destruct Hz as [Hz|Hz].
      * rewrite Hz. lra.
      * exfalso. revert Hz. apply Rinv_neq_0_compat, HR.
    + lra.
  - rewrite !map_map, nth_map_seq by exact Hi.
    assert (i = 0%nat) as ->.
    { unfold divisor in Hd. destruct endpoint; lia. }
    simpl. lra.
Qed.

Lemma linspace_nth (a b : R) (num : nat) (endpoint : bool) (i : nat) :
  (i < num)%nat ->
  nth i (Numpy.linspace a b num endpoint) 0
  = a + INR i * ((b - a) / INR (divisor num endpoint)).
Proof.
  intros Hi. unfold Numpy.linspace.
  pose proof (linspace_cells a b num endpoint i Hi) as Hc. cbv zeta in Hc.
  destruct (endpoint && (1 <? num)%nat) eqn:Hlast; [|exact Hc].
  apply andb_prop in Hlast. destruct Hlast as [-> Hn].
  apply Nat.ltb_lt in Hn.
  set (y := map (fun t => t + a) _) in *.
  assert (Hy : length y = num).
  { pose proof (linspace_length a b num false) as Hl.
    unfold Numpy.linspace in Hl. simpl in Hl.
    subst y. simpl.
    destruct (0 <? num - 1)%nat; try destruct (Req_dec_T _ _);
      rewrite !length_map; apply length_seq. }
  rewrite set_last_nth by lia. rewrite Hy.
  destruct (Nat.eqb_spec i (num - 1)) as [->|Hne]; [|exact Hc].
  unfold divisor.
  assert (HR : INR (num - 1) <> 0) by (apply not_0_INR; lia).
  field. exact HR.
Qed.

(** ** Order and range of a grid *)

Lemma step_nonneg (a b : R) (d : nat) : a <= b -> 0 <= (b - a) / INR d.
Proof.
  intros Hab. destruct d as [|d].
  - simpl. unfold Rdiv. rewrite Rinv_0. lra.
  - apply Rmult_le_pos; [lra|].
    apply Rlt_le, Rinv_0_lt_compat, lt_0_INR. lia.
Qed.

Lemma step_pos (a b : R) (d : nat) : a < b -> (0 < d)%nat -> 0 < (b - a) / INR d.
Proof.
  intros Hab Hd. apply Rmult_lt_0_compat; [lra|].
  apply Rinv_0_lt_compat, lt_0_INR, Hd.
Qed.

Lemma divisor_pos (num : nat) (endpoint : bool) (i j : nat) :
  (i < j < num)%nat -> (0 < divisor num endpoint)%nat.
Proof. unfold divisor. destruct endpoint; lia. Qed.

Lemma linspace_first (a b : R) (num : nat) (endpoint : bool) :
  (0 < num)%nat -> nth 0 (Numpy.linspace a b num endpoint) 0 = a.
Proof.
  intros Hn. rewrite linspace_nth by exact Hn. simpl. lra.
Qed.

Lemma linspace_increasing (a b : R) (num : nat) (endpoint : bool) :
  a < b -> increasing (Numpy.linspace a b num endpoint).
Proof.
  intros Hab i j Hij. rewrite linspace_length in Hij.
  rewrite !linspace_nth by lia.
  pose proof (step_pos a b _ Hab (divisor_pos num endpoint i j Hij)) as Hs.
  assert (Hlt : INR i < INR j) by (apply lt_INR; lia).
  nra.
Qed.

Lemma linspace_nondecreasing (a b : R) (num : nat) (endpoint : bool) :
  a <= b -> nondecreasing (Numpy.linspace a b num endpoint).
Proof.
  intros Hab i j Hij. rewrite linspace_length in Hij.
  rewrite !linspace_nth by lia.
  pose proof (step_nonneg a b (divisor num endpoint) Hab) as Hs.
  assert (Hle : INR i <= INR j) by (apply le_INR; lia).
  nra.
Qed.

Lemma linspace_ge_start (a b : R) (num : nat) (endpoint : bool) :
  a <= b -> forall x, In x (Numpy.linspace a b num endpoint) -> a <= x.
Proof.
  intros Hab. apply (In_nth_lt _ 0). intros i Hi.
  rewrite linspace_length in Hi. rewrite linspace_nth by exact Hi.
  pose proof (step_nonneg a b (divisor num endpoint) Hab) as Hs.
  pose proof (pos_INR i). nra.
Qed.

Lemma linspace_le_stop (a b : R) (num : nat) (endpoint : bool) :
  a <= b -> forall x, In x (Numpy.linspace a b num endpoint) -> x <= b.
Proof.
  intros Hab. apply (In_nth_lt _ 0). intros i Hi.
  rewrite linspace_length in Hi. rewrite linspace_nth by exact Hi.
  destruct (Nat.eq_dec (divisor num endpoint) 0) as [Hz|Hz].
  - assert (i = 0%nat) as -> by (unfold divisor in Hz; destruct endpoint; lia).
    simpl. lra.
  - assert (Hd : 0 < INR (divisor num endpoint)) by (apply lt_0_INR; lia).
    assert (Hi' : INR i <= INR (divisor num endpoint))
      by (apply le_INR; unfold divisor; destruct endpoint; lia).
    pose proof (step_nonneg a b (divisor num endpoint) Hab) as Hs.
    assert (Hm : INR (divisor num endpoint) * ((b - a) / INR (divisor num endpoint))
                 = b - a) by (field; lra).
    nra.
Qed.

Lemma linspace_open_lt_stop (a b : R) (num : nat) :
  a < b -> forall x, In x (Numpy.linspace a b num false) -> x < b.
Proof.
  intros Hab. apply (In_nth_lt _ 0). intros i Hi.
  rewrite linspace_length in Hi. rewrite linspace_nth by exact Hi.
  unfold divisor.
  assert (Hd : 0 < INR num) by (apply lt_0_INR; lia).
  assert (Hi' : INR i < INR num) by (apply lt_INR; exact Hi).
  assert (Hs : 0 < (b - a) / INR num) by (apply step_pos; [exact Hab|lia]).
  assert (Hm : INR num * ((b - a) / INR num) = b - a) by (field; lra).
  nra.
Qed.

Lemma last_nth (l : list R) (d : R) :
  last l d = nth (length l - 1) l d.
Proof.
  induction l as [|u l IH]; [reflexivity|].
  destruct l as [|w l]; [reflexivity|].
  change (last (u :: w :: l) d) with (last (w :: l) d).
  rewrite IH. simpl. rewrite Nat.sub_0_r. reflexivity.
Qed.

Lemma linspace_closed_last (a b d : R) (num : nat) :
  (2 <= num)%nat -> last (Numpy.linspace a b num true) d = b.
Proof.
  intros Hn. rewrite last_nth, linspace_length.
  rewrite (nth_indep _ d 0) by (rewrite linspace_length; lia).
  rewrite linspace_nth by lia. unfold divisor.
  assert (HR : INR (num - 1) <> 0) by (apply not_0_INR; lia).
  field. exact HR.
Qed.

Lemma linspace_single (a b : R) (endpoint : bool) :
  Numpy.linspace a b 1 endpoint = [a].
Proof.
  pose proof (linspace_length a b 1 endpoint) as Hl.
  pose proof (linspace_first a b 1 endpoint ltac:(lia)) as Hf.
  destruct (Numpy.linspace a b 1 endpoint) as [|u [|w l]];
    simpl in Hl, Hf; try discriminate.
  congruence.
Qed.

(** ** Facts about [e] and the logarithm *)

Lemma e_pos : 0 < e.
Proof. apply exp_pos. Qed.

Lemma e_gt_2 : 2 < e.
Proof.
  unfold e. pose proof (exp_ineq1 1 ltac:(lra)). lra.
Qed.

Lemma e_le_3 : e <= 3.
Proof. exact exp_le_3. Qed.

Lemma ln_e : ln e = 1.
Proof. apply ln_exp. Qed.

Lemma ln_nondecreasing (x y : R) : 0 < x -> x <= y -> ln x <= ln y.
Proof.
  intros Hx [Hlt| ->]; [|lra].
  apply Rlt_le, ln_increasing; assumption.
Qed.

Lemma exp_pow (t : R) (n : nat) : exp t ^ n = exp (INR n * t).
Proof.
  induction n as [|n IH].
  - simpl. rewrite Rmult_0_l, exp_0. reflexivity.
  - rewrite S_INR, Rmult_plus_distr_r, Rmult_1_l, exp_plus.
    change (exp t ^ S n) with (exp t * exp t ^ n).
    rewrite IH. ring.
Qed.

(** [(1 + 3/2048)^2048 <= e^3], and the left side already exceeds 20. *)
Lemma exp_3_gt_20 : 20 < exp 3.
Proof.
  assert (Hu : IZR 2051 / IZR 2048 < exp (3 / 2048)).
  { pose proof (exp_ineq1 (3 / 2048) ltac:(lra)). lra. }
  assert (Hp : (IZR 2051 / IZR 2048) ^ 2048 <= exp (3 / 2048) ^ 2048).
  { apply pow_incr. split; [|lra].
    apply Rlt_le, Rdiv_lt_0_compat; apply IZR_lt; reflexivity. }
  rewrite exp_pow in Hp.
  replace (INR 2048 * (3 / 2048)) with 3 in Hp.
  2:{ rewrite INR_IZR_INZ.
      change (Z.of_nat 2048) with 2048%Z. field. }
  apply Rlt_le_trans with (2 := Hp).
  unfold Rdiv. rewrite Rpow_mult_distr, pow_inv, !pow_IZR.
  change (Z.of_nat 2048) with 2048%Z.
  assert (Hb : 0 < IZR (2048 ^ 2048)) by (apply IZR_lt; reflexivity).
  apply Rmult_lt_reg_r with (1 := Hb).
  rewrite Rmult_assoc, Rinv_l, Rmult_1_r by (apply Rgt_not_eq, Hb).
  rewrite <- mult_IZR. apply IZR_lt.
  apply Z.ltb_lt. vm_compute. reflexivity.
Qed.

Lemma ln_20_lt_3 : ln 20 < 3.
Proof.
  apply exp_lt_inv. rewrite exp_ln by lra. exact exp_3_gt_20.
Qed.

Lemma ln_20_ge_1 : 1 <= ln 20.
Proof.
  rewrite <- ln_e. apply ln_nondecreasing; [exact e_pos|].
  pose proof e_le_3. lra.
Qed.

(** ** The grids and payoffs of the script *)

Lemma Forall2_map_r {A B : Type} (f : A -> B) (P : A -> B -> Prop) (l : list A) :
  Forall (fun x => P x (f x)) l -> Forall2 P l (map f l).
Proof.
  induction 1; simpl; constructor; assumption.
Qed.

Lemma Forall2_repeat_r {A B : Type} (v : B) (P : A -> B -> Prop) (l : list A) :
  Forall (fun x => P x v) l -> Forall2 P l (repeat v (length l)).
Proof.
  induction 1; simpl; constructor; assumption.
Qed.

Lemma nth_map_lt {A : Type} (f : A -> R) (l : list A) (d : A) (i : nat) :
  (i < length l)%nat -> nth i (map f l) 0 = f (nth i l d).
Proof.
  intros Hi.
  rewrite (nth_indep _ 0 (f d)) by (rewrite length_map; exact Hi).
  apply map_nth.
Qed.

Lemma increasing_map (f : R -> R) (P : R -> Prop) (l : list R) :
  (forall x y, P x -> x < y -> f x < f y) ->
  Forall P l -> increasing l -> increasing (map f l).
Proof.
  intros Hf HP Hl i j Hij. rewrite length_map in Hij.
  rewrite !(nth_map_lt f l 0) by lia.
  apply Hf; [|apply Hl; exact Hij].
  rewrite Forall_forall in HP. apply HP, nth_In. lia.
Qed.

Lemma x1_length : length x1 = 400%nat.
Proof. apply linspace_length. Qed.

Lemma x2_length : length x2 = 200%nat.
Proof. apply linspace_length. Qed.

Lemma x3_length : length x3 = 300%nat.
Proof. apply linspace_length. Qed.

Lemma e_lt_20 : e < 20.
Proof. pose proof e_le_3. lra. Qed.

Lemma x1_range : Forall (fun x => -20 <= x <= 0) x1.
Proof.
  apply Forall_forall. intros x Hx. split.
  - apply (linspace_ge_start (-20) 0 400 true); [lra|exact Hx].
  - apply (linspace_le_stop (-20) 0 400 true); [lra|exact Hx].
Qed.

Lemma x2_range : Forall (fun x => 0 <= x < e) x2.
Proof.
  pose proof e_pos as He.
  apply Forall_forall. intros x Hx. split.
  - apply (linspace_ge_start 0 e 200 false); [lra|exact Hx].
  - apply (linspace_open_lt_stop 0 e 200); [lra|exact Hx].
Qed.

Lemma x3_range : Forall (fun x => e <= x <= 20) x3.
Proof.
  pose proof e_lt_20 as He.
  apply Forall_forall. intros x Hx. split.
  - apply (linspace_ge_start e 20 300 true); [lra|exact Hx].
  - apply (linspace_le_stop e 20 300 true); [lra|exact Hx].
Qed.

Lemma linear_div (x : R) : linear x = x / e.
Proof.
  unfold linear. pose proof e_pos. field. lra.
Qed.

Lemma log1_pos (x : R) : 0 < x -> Numpy.log1 x = inr (ln x).
Proof.
  intros Hx. unfold Numpy.log1.
  destruct (Rlt_dec 0 x) as [_|Hn]; [reflexivity|contradiction].
Qed.

Lemma log1_nonpos (x : R) : x <= 0 -> exists err, Numpy.log1 x = inl err.
Proof.
  intros Hx. unfold Numpy.log1.
  destruct (Rlt_dec 0 x) as [Hp|_]; [lra|].
  destruct (Req_dec_T x 0); eauto.
Qed.

Lemma y3_values : y3 = map inr (map ln x3).
Proof.
  unfold y3, Numpy.log. rewrite map_map.
  apply map_ext_in. intros x Hx.
  pose proof x3_range as Hr. rewrite Forall_forall in Hr.
  apply log1_pos. pose proof (Hr x Hx). pose proof e_pos. lra.
Qed.

Lemma y2_increasing : increasing y2.
Proof.
  apply (increasing_map linear (fun _ => True)).
  - intros x y _ Hxy. rewrite !linear_div.
    apply Rmult_lt_compat_r; [apply Rinv_0_lt_compat, e_pos|exact Hxy].
  - apply Forall_forall. trivial.
  - apply linspace_increasing, e_pos.
Qed.

Lemma ln_x3_increasing : increasing (map ln x3).
Proof.
  apply (increasing_map ln (fun x => e <= x <= 20)).
  - intros x y Hx Hxy. apply ln_increasing; [|exact Hxy].
    pose proof e_pos. lra.
  - exact x3_range.
  - apply linspace_increasing, e_lt_20.
Qed.

(** C1: on segment 1 every payoff is 0; on segment 2 every payoff is [x / e],
    non-negative, and the payoffs are strictly increasing; on segment 3
    every payoff is [ln x] and the payoffs are strictly increasing; every
    payoff sequence has the length of its grid. *)
Theorem payoff_on_segments :
  Forall2 (fun x y => x <= 0 /\ y = 0) x1 y1 /\
  (Forall2 (fun x y => 0 <= x < e /\ y = x / e /\ 0 <= y) x2 y2 /\
   increasing y2) /\
  (Forall2 (fun x r => e <= x /\ r = inr (ln x)) x3 y3 /\
   y3 = map inr (map ln x3) /\ increasing (map ln x3)) /\
  length y1 = length x1 /\ length y2 = length x2 /\ length y3 = length x3.
Proof.
  repeat split.
  - unfold y1, Numpy.zeros_like. apply Forall2_repeat_r.
    eapply Forall_impl; [|exact x1_range]. simpl. intros x Hx. lra.
  - unfold y2. apply Forall2_map_r.
    eapply Forall_impl; [|exact x2_range]. simpl. intros x Hx.
    rewrite linear_div. repeat split; try lra.
    apply Rmult_le_pos; [lra|]. apply Rlt_le, Rinv_0_lt_compat, e_pos.
  - exact y2_increasing.
  - unfold y3, Numpy.log. apply Forall2_map_r.
    eapply Forall_impl; [|exact x3_range]. simpl. intros x Hx.
    split; [lra|]. apply log1_pos. pose proof e_pos. lra.
  - exact y3_values.
  - exact ln_x3_increasing.
  - unfold y1, Numpy.zeros_like. apply repeat_length.
  - unfold y2. apply length_map.
  - unfold y3, Numpy.log. apply length_map.
Qed.

(** ** Segment boundaries *)

Lemma last_In (l : list R) (d : R) : l <> [] -> In (last l d) l.
Proof.
  intros Hl. rewrite last_nth. apply nth_In.
  destruct l; [congruence|simpl; lia].
Qed.

Lemma nonempty_of_length (l : list R) (n : nat) :
  length l = S n -> l <> [].
Proof. destruct l; [discriminate|congruence]. Qed.

Lemma x1_last : last x1 0 = 0.
Proof. apply linspace_closed_last. lia. Qed.

Lemma x2_first : nth 0 x2 0 = 0.
Proof. apply linspace_first. lia. Qed.

Lemma x3_first : nth 0 x3 0 = e.
Proof. apply linspace_first. lia. Qed.

Lemma x3_last : last x3 0 = 20.
Proof. apply linspace_closed_last. lia. Qed.

Lemma zero_in_x1 : In 0 x1.
Proof.
  rewrite <- x1_last at 1. apply last_In.
  apply (nonempty_of_length _ 399), x1_length.
Qed.

Lemma zero_in_x2 : In 0 x2.
Proof.
  rewrite <- x2_first at 1. apply nth_In. rewrite x2_length. lia.
Qed.

Lemma e_in_x3 : In e x3.
Proof.
  rewrite <- x3_first at 1. apply nth_In. rewrite x3_length. lia.
Qed.

Lemma increasing_NoDup (l : list R) : increasing l -> NoDup l.
Proof.
  intros Hl. apply (NoDup_nth l 0). intros i j Hi Hj Heq.
  destruct (Nat.lt_trichotomy i j) as [Hlt|[Heq'|Hgt]]; [|exact Heq'|].
  - pose proof (Hl i j ltac:(lia)). lra.
  - pose proof (Hl j i ltac:(lia)). lra.
Qed.

(** Apart from [x = 0] the three grids are pairwise disjoint, and [e] is
    sampled once, by the third grid only. *)
Lemma grids_meet_only_at_zero :
  (forall x, In x x1 -> In x x2 -> x = 0) /\
  (forall x, In x x3 -> ~ In x x1 /\ ~ In x x2) /\
  (In e x3 /\ ~ In e x1 /\ ~ In e x2 /\ NoDup x3).
Proof.
  pose proof x1_range as H1. pose proof x2_range as H2.
  pose proof x3_range as H3. rewrite Forall_forall in H1, H2, H3.
  pose proof e_pos as He.
  split; [|split; [|repeat split]].
  - intros x Hx1 Hx2. pose proof (H1 x Hx1). pose proof (H2 x Hx2). lra.
  - intros x Hx3. pose proof (H3 x Hx3). split; intros Hx.
    + pose proof (H1 x Hx). lra.
    + pose proof (H2 x Hx). lra.
  - exact e_in_x3.
  - intros Hx. pose proof (H1 e Hx). lra.
  - intros Hx. pose proof (H2 e Hx). lra.
  - apply increasing_NoDup, linspace_increasing, e_lt_20.
Qed.

(** C2: the grids do not realise non-overlapping segments: [x = 0] is
    sampled both by the first grid (as its last cell, [linspace(-20, 0, 400)]
    keeps its right end) and by the second grid (as its first cell), although
    the first segment is meant to be [x < 0]. *)
Theorem zero_sampled_by_two_grids :
  last x1 0 = 0 /\ nth 0 x2 0 = 0 /\ In 0 x1 /\ In 0 x2 /\
  ~ (forall x, In x x1 -> x < 0).
Proof.
  repeat split.
  - exact x1_last.
  - exact x2_first.
  - exact zero_in_x1.
  - exact zero_in_x2.
  - intros H. pose proof (H 0 zero_in_x1). lra.
Qed.

(** C3: [np.log] signals an error on every input [<= 0]; the grid it is
    applied to only holds values [>= e > 0], so every cell of [y3] is a
    logarithm and none is an error. *)
Theorem log_error_unreachable :
  (forall x, x <= 0 -> exists err, Numpy.log1 x = inl err) /\
  0 < e /\
  Forall (fun x => e <= x /\ Numpy.log1 x = inr (ln x)) x3 /\
  Forall (fun r => exists v, r = inr v) y3.
Proof.
  repeat split.
  - exact log1_nonpos.
  - exact e_pos.
  - eapply Forall_impl; [|exact x3_range]. simpl. intros x Hx.
    split; [lra|]. apply log1_pos. pose proof e_pos. lra.
  - rewrite y3_values. apply Forall_forall. intros r Hr.
    apply in_map_iff in Hr. destruct Hr as (v & <- & _). eauto.
Qed.

(** C4: at the boundary [x = e] the linear rule tends to 1 from the left,
    the logarithm is 1, and the two values differ by at most [1e-9]
    (in exact arithmetic they are equal). *)
Theorem continuity_at_e :
  (forall eps, 0 < eps ->
     exists delta, 0 < delta /\
       forall x, e - delta < x < e -> Rabs (linear x - 1) < eps) /\
  linear e = 1 /\
  Numpy.log1 e = inr 1 /\
  Rabs (linear e - ln e) <= 1e-9.
Proof.
  pose proof e_pos as He.
  assert (Hle : linear e = 1) by (rewrite linear_div; field; lra).
  repeat split.
  - intros eps Heps. exists (eps * e). split; [nra|].
    intros x [Hlo Hhi]. rewrite linear_div.
    replace (x / e - 1) with (- ((e - x) / e)) by (field; lra).
    rewrite Rabs_Ropp, Rabs_pos_eq.
    + apply Rmult_lt_reg_r with e; [exact He|].
      unfold Rdiv. rewrite Rmult_assoc, Rinv_l by lra. lra.
    + apply Rmult_le_pos; [lra|]. apply Rlt_le, Rinv_0_lt_compat, He.
  - exact Hle.
  - rewrite log1_pos by exact He. rewrite ln_e. reflexivity.
  - rewrite Hle, ln_e. replace (1 - 1) with 0 by ring. rewrite Rabs_R0. lra.
Qed.

(** ** The contract of domain generation *)

(** C5 (as stated): with a single sample and the right end included the
    grid is [[a]], which does not reach [b]. *)
Lemma generate_domain_single_sample_misses_stop :
  ~ generate_domain_contract 0 1 1 true (Numpy.linspace 0 1 1 true).
Proof.
  unfold generate_domain_contract. rewrite linspace_single.
  intros (_ & _ & _ & _ & _ & Hlast). simpl in Hlast. lra.
Qed.

(** C5 (amended): for [a <= b] and a positive sample count the grid has
    exactly [num] cells, cell [i] is [a + i * (b - a) / div] with
    [div = num - 1] when the right end is included and [div = num] when it
    is not, the grid is non-decreasing (strictly increasing when [a < b])
    and starts at [a] exactly; with the
    right end included the last cell is [b] when there are at least two
    samples and the grid is [[a]] when there is one; with the right end
    excluded and [a < b] every cell is below [b]. *)
Theorem generate_domain_contract_holds
    (a b : R) (num : nat) (endpoint : bool) :
  a <= b -> (0 < num)%nat ->
  generate_domain_contract_numpy a b num endpoint
    (Numpy.linspace a b num endpoint).
Proof.
  intros Hab Hn. unfold generate_domain_contract_numpy.
  split; [apply linspace_length|].
  split; [intros i Hi; apply linspace_nth, Hi|].
  split; [apply linspace_nondecreasing, Hab|].
  split; [apply linspace_increasing|].
  split; [apply linspace_first, Hn|].
  destruct endpoint.
  - split.
    + intros H2. apply linspace_closed_last, H2.
    + intros ->. apply linspace_single.
  - intros Hlt. apply linspace_open_lt_stop, Hlt.
Qed.

Lemma generate_domain_contract_holds_witness :
  generate_domain_contract_numpy 0 1 2 true (Numpy.linspace 0 1 2 true).
Proof.
  apply (generate_domain_contract_holds 0 1 2 true); [lra|lia].
Defined.

(** ** End-to-end values *)

Lemma INR_199 : INR 199 = 199.
Proof. rewrite INR_IZR_INZ. reflexivity. Qed.

Lemma INR_200 : INR 200 = 200.
Proof. rewrite INR_IZR_INZ. reflexivity. Qed.

Lemma x2_last : last x2 0 = e * 199 / 200.
Proof.
  rewrite last_nth, x2_length. unfold x2.
  rewrite linspace_nth by lia.
  change (200 - 1)%nat with 199%nat. unfold divisor.
  rewrite INR_199, INR_200. field.
Qed.

Lemma y2_last : last y2 0 = 199 / 200.
Proof.
  rewrite last_nth. unfold y2. rewrite length_map, x2_length.
  rewrite (nth_map_lt linear x2 0) by (rewrite x2_length; lia).
  pose proof x2_last as Hx. rewrite last_nth, x2_length in Hx.
  rewrite Hx, linear_div. pose proof e_pos. field. lra.
Qed.

Lemma y2_first : nth 0 y2 0 = 0.
Proof.
  unfold y2. rewrite (nth_map_lt linear x2 0) by (rewrite x2_length; lia).
  rewrite x2_first, linear_div. unfold Rdiv. ring.
Qed.

Lemma y1_zero (i : nat) : nth i y1 0 = 0.
Proof. unfold y1, Numpy.zeros_like. apply nth_repeat. Qed.

(** C6: the grid over [[0, e)] with 200 samples, right end excluded, and the
    linear rule give a first payoff of 0 and a last payoff of
    [(e * 199 / 200) / e = 199 / 200]. *)
Theorem linear_segment_end_to_end :
  x2 = Numpy.linspace 0 e 200 false /\
  y2 = map linear x2 /\
  length y2 = 200%nat /\
  nth 0 y2 0 = 0 /\
  last x2 0 = e * 199 / 200 /\
  last y2 0 = (e * 199 / 200) / e /\
  last y2 0 = 199 / 200.
Proof.
  repeat split.
  - unfold y2. rewrite length_map. exact x2_length.
  - exact y2_first.
  - exact x2_last.
  - rewrite y2_last. pose proof e_pos. field. lra.
  - exact y2_last.
Qed.

Lemma nth_error_combine {A B : Type} (l1 : list A) (l2 : list B)
    (i : nat) (u : A) (v : B) :
  nth_error l1 i = Some u -> nth_error l2 i = Some v ->
  nth_error (combine l1 l2) i = Some (u, v).
Proof.
  revert l2 i. induction l1 as [|h1 l1 IH]; intros l2 i H1 H2.
  - destruct i; discriminate.
  - destruct l2 as [|h2 l2]; [destruct i; discriminate|].
    destruct i as [|i]; simpl in *; [congruence|].
    apply IH; assumption.
Qed.

Lemma x1_cell_399 : nth_error x1 399 = Some 0.
Proof.
  rewrite (nth_error_nth' x1 0) by (rewrite x1_length; lia).
  pose proof x1_last as Hl. rewrite last_nth, x1_length in Hl.
  change (400 - 1)%nat with 399%nat in Hl. rewrite Hl. reflexivity.
Qed.

Lemma y1_cell_399 : nth_error y1 399 = Some 0.
Proof.
  rewrite (nth_error_nth' y1 0).
  - rewrite y1_zero. reflexivity.
  - unfold y1, Numpy.zeros_like. rewrite repeat_length, x1_length. lia.
Qed.

Lemma x2_cell_0 : nth_error x2 0 = Some 0.
Proof.
  rewrite (nth_error_nth' x2 0) by (rewrite x2_length; lia).
  rewrite x2_first. reflexivity.
Qed.

Lemma y2_cell_0 : nth_error y2 0 = Some 0.
Proof.
  rewrite (nth_error_nth' y2 0).
  - rewrite y2_first. reflexivity.
  - unfold y2. rewrite length_map, x2_length. lia.
Qed.

(** C9: [x = 0] is sampled twice: it is cell 399, the last of the 400
    cells, of the first grid and cell 0 of the second grid, it occurs once
    in each of them and not in the third; the point plotted there is
    [(0, 0)] on both curves, since the zero rule gives 0 and the linear
    rule gives [0 / e = 0]. *)
Theorem boundary_zero_consistent :
  (length x1 = 400%nat /\ nth_error x1 399 = Some 0 /\
   nth_error x2 0 = Some 0) /\
  (In 0 x1 /\ NoDup x1 /\ In 0 x2 /\ NoDup x2 /\ ~ In 0 x3) /\
  (nth_error (combine x1 y1) 399 = Some (0, 0) /\
   nth_error (combine x2 y2) 0 = Some (0, 0)) /\
  (y1 = Numpy.zeros_like x1 /\ y2 = map linear x2 /\
   linear 0 = 0 / e /\ 0 / e = 0).
Proof.
  pose proof e_pos as He.
  split; [|split; [|split]].
  - split; [exact x1_length|]. split; [exact x1_cell_399|exact x2_cell_0].
  - split; [exact zero_in_x1|].
    split; [apply increasing_NoDup, linspace_increasing; lra|].
    split; [exact zero_in_x2|].
    split; [apply increasing_NoDup, linspace_increasing; exact He|].
    intros H0. pose proof x3_range as R3. rewrite Forall_forall in R3.
    pose proof (R3 0 H0). lra.
  - split.
    + apply nth_error_combine; [exact x1_cell_399|exact y1_cell_399].
    + apply nth_error_combine; [exact x2_cell_0|exact y2_cell_0].
  - split; [reflexivity|]. split; [reflexivity|].
    split; [unfold linear; field; lra|unfold Rdiv; ring].
Qed.

(** ** Tick marks *)

(** C8: the x ticks run from -20 to 20 in steps of 2, covering the shown
    domain; the y ticks run from -5 in steps of 1/2 and stop before 5, so
    the last y tick is 4.5. *)
Theorem tick_configuration :
  xticks = Some [(-20); (-18); (-16); (-14); (-12); (-10); (-8); (-6); (-4); (-2); 0; 2; 4; 6; 8; 10; 12; 14; 16; 18; 20]%Z /\
  xlim = ((-20)%Z, 20%Z) /\
  yticks = Some [(-5); (-9 # 2); (-4); (-7 # 2); (-3); (-5 # 2); (-2); (-3 # 2); (-1); (-1 # 2); 0; (1 # 2); 1; (3 # 2); 2; (5 # 2); 3; (7 # 2); 4; (9 # 2)]%Q /\
  (exists ys, yticks = Some ys /\ length ys = 20%nat /\
     last ys 0%Q = (9 # 2)%Q /\ Forall (fun q => (q < 5)%Q) ys) /\
  ylim = ((-5)%Z, 5%Z).
Proof.
  split; [vm_compute; reflexivity|].
  split; [reflexivity|].
  split; [vm_compute; reflexivity|].
  split; [|reflexivity].
  eexists. split; [vm_compute; reflexivity|].
  split; [reflexivity|].
  split; [reflexivity|].
  repeat (constructor; [reflexivity|]). constructor.
Qed.

(** ** The whole curve *)

Lemma increasing_nondecreasing (l : list R) : increasing l -> nondecreasing l.
Proof.
  intros Hl i j Hij.
  destruct (Nat.eq_dec i j) as [->|Hne]; [lra|].
  apply Rlt_le, Hl. lia.
Qed.

Lemma nondecreasing_app (l1 l2 : list R) :
  nondecreasing l1 -> nondecreasing l2 ->
  (forall u v, In u l1 -> In v l2 -> u <= v) ->
  nondecreasing (l1 ++ l2).
Proof.
  intros H1 H2 H12 i j Hij. rewrite length_app in Hij.
  destruct (Nat.lt_ge_cases j (length l1)) as [Hj|Hj].
  - rewrite !app_nth1 by lia. apply H1. lia.
  - rewrite (app_nth2 l1 l2 0 Hj).
    destruct (Nat.lt_ge_cases i (length l1)) as [Hi|Hi].
    + rewrite app_nth1 by exact Hi.
      apply H12; apply nth_In; lia.
    + rewrite (app_nth2 l1 l2 0 Hi). apply H2. lia.
Qed.

Lemma y1_values : Forall (fun v => v = 0) y1.
Proof.
  apply Forall_forall. intros v Hv.
  unfold y1, Numpy.zeros_like in Hv. apply repeat_spec in Hv. exact Hv.
Qed.

Lemma y2_values : Forall (fun v => 0 <= v < 1) y2.
Proof.
  pose proof e_pos as He.
  apply Forall_forall. intros v Hv. unfold y2 in Hv.
  apply in_map_iff in Hv. destruct Hv as (x & <- & Hx).
  pose proof x2_range as Hr. rewrite Forall_forall in Hr.
  destruct (Hr x Hx) as [Hlo Hhi]. rewrite linear_div. split.
  - apply Rmult_le_pos; [exact Hlo|]. apply Rlt_le, Rinv_0_lt_compat, He.
  - apply Rmult_lt_reg_r with e; [exact He|].
    unfold Rdiv. rewrite Rmult_assoc, Rinv_l by lra. lra.
Qed.

Lemma ln_x3_values : Forall (fun v => 1 <= v <= ln 20) (map ln x3).
Proof.
  pose proof e_pos as He.
  apply Forall_forall. intros v Hv.
  apply in_map_iff in Hv. destruct Hv as (x & <- & Hx).
  pose proof x3_range as Hr. rewrite Forall_forall in Hr.
  destruct (Hr x Hx) as [Hlo Hhi]. split.
  - rewrite <- ln_e. apply ln_nondecreasing; assumption.
  - apply ln_nondecreasing; lra.
Qed.

(** C10: the payoffs of the three curves, read left to right, hold no
    error value, are non-decreasing, non-negative and at most
    [ln 20 < 3], hence strictly inside the displayed range of y. *)
Theorem payoff_within_display_range :
  exists vs,
    payoff = map inr vs /\
    vs = y1 ++ y2 ++ map ln x3 /\
    nondecreasing vs /\
    Forall (fun v => 0 <= v <= ln 20) vs /\
    ln 20 < 3 /\
    Forall (fun v => IZR (fst ylim) < v < IZR (snd ylim)) vs.
Proof.
  pose proof y1_values as V1. pose proof y2_values as V2.
  pose proof ln_x3_values as V3. pose proof ln_20_lt_3 as H3.
  pose proof ln_20_ge_1 as H1.
  assert (Hb : Forall (fun v => 0 <= v <= ln 20) (y1 ++ y2 ++ map ln x3)).
  { repeat (apply Forall_app; split).
    - eapply Forall_impl; [|exact V1]. simpl. intros v ->. lra.
    - eapply Forall_impl; [|exact V2]. simpl. intros v Hv. lra.
    - eapply Forall_impl; [|exact V3]. simpl. intros v Hv. lra. }
  exists (y1 ++ y2 ++ map ln x3).
  split; [|split; [reflexivity|split; [|split; [exact Hb|split; [exact H3|]]]]].
  - unfold payoff. rewrite y3_values, !map_app. reflexivity.
  - rewrite Forall_forall in V1, V2, V3.
    apply nondecreasing_app; [|apply nondecreasing_app|].
    + intros i j _. rewrite !y1_zero. lra.
    + apply increasing_nondecreasing, y2_increasing.
    + apply increasing_nondecreasing, ln_x3_increasing.
    + intros u v Hu Hv. pose proof (V2 u Hu). pose proof (V3 v Hv). lra.
    + intros u v Hu Hv. rewrite (V1 u Hu).
      apply in_app_or in Hv. destruct Hv as [Hv|Hv].
      * pose proof (V2 v Hv). lra.
      * pose proof (V3 v Hv). lra.
  - eapply Forall_impl; [|exact Hb]. simpl. intros v Hv. lra.
Qed.

(** ** The sampled payoff against the piecewise function *)

Lemma f_left (x : R) : x <= 0 -> f x = 0.
Proof.
  intros Hx. unfold f. pose proof e_pos as He.
  destruct (Rlt_dec x 0) as [_|Hn]; [reflexivity|].
  destruct (Rlt_dec x e) as [_|Hn']; [|lra].
  replace x with 0 by lra. ring.
Qed.

Lemma f_middle (x : R) : 0 <= x < e -> f x = linear x.
Proof.
  intros Hx. unfold f, linear.
  destruct (Rlt_dec x 0) as [Hn|_]; [lra|].
  destruct (Rlt_dec x e) as [_|Hn]; [reflexivity|lra].
Qed.

Lemma f_right (x : R) : e <= x -> f x = ln x.
Proof.
  intros Hx. unfold f. pose proof e_pos as He.
  destruct (Rlt_dec x 0) as [Hn|_]; [lra|].
  destruct (Rlt_dec x e) as [Hn|_]; [lra|reflexivity].
Qed.

(** X1: every plotted payoff is the value of the piecewise function [f] at
    its sample, on all three grids, including both samples of [x = 0]. *)
Theorem payoff_samples_on_graph :
  Forall2 (fun x r => r = inr (f x)) (x1 ++ x2 ++ x3) payoff.
Proof.
  unfold payoff. repeat apply Forall2_app.
  - unfold y1, Numpy.zeros_like. rewrite map_repeat.
    apply Forall2_repeat_r.
    eapply Forall_impl; [|exact x1_range]. simpl. intros x Hx.
    rewrite f_left by lra. reflexivity.
  - unfold y2. rewrite map_map. apply Forall2_map_r.
    eapply Forall_impl; [|exact x2_range]. simpl. intros x Hx.
    rewrite f_middle by exact Hx. reflexivity.
  - unfold y3, Numpy.log. apply Forall2_map_r.
    eapply Forall_impl; [|exact x3_range]. simpl. intros x Hx.
    rewrite f_right by lra. apply log1_pos. pose proof e_pos. lra.
Qed.

Lemma f_nonneg (x : R) : 0 <= f x.
Proof.
  pose proof e_pos as He.
  destruct (Rle_lt_dec x 0) as [H0|H0]; [rewrite f_left by exact H0; lra|].
  destruct (Rlt_le_dec x e) as [H1|H1].
  - rewrite f_middle, linear_div by lra.
    apply Rmult_le_pos; [lra|]. apply Rlt_le, Rinv_0_lt_compat, He.
  - rewrite f_right by exact H1. rewrite <- ln_1.
    pose proof e_gt_2. apply ln_nondecreasing; lra.
Qed.

Lemma linear_lt_1 (x : R) : x < e -> linear x < 1.
Proof.
  intros Hx. pose proof e_pos as He. rewrite linear_div.
  apply Rmult_lt_reg_r with e; [exact He|].
  unfold Rdiv. rewrite Rmult_assoc, Rinv_l by lra. lra.
Qed.

(** X2: the piecewise payoff is non-decreasing on the whole real line,
    across both segment boundaries. *)
Theorem f_nondecreasing (x y : R) : x <= y -> f x <= f y.
Proof.
  intros Hxy. pose proof e_pos as He.
  destruct (Rle_lt_dec x 0) as [H0|H0].
  { rewrite (f_left x H0). apply f_nonneg. }
  destruct (Rlt_le_dec x e) as [H1|H1].
  - rewrite (f_middle x) by lra.
    destruct (Rlt_le_dec y e) as [H2|H2].
    + rewrite (f_middle y) by lra. rewrite !linear_div.
      apply Rmult_le_compat_r; [|exact Hxy].
      apply Rlt_le, Rinv_0_lt_compat, He.
    + rewrite (f_right y H2).
      pose proof (linear_lt_1 x H1) as Hl.
      assert (1 <= ln y) by (rewrite <- ln_e; apply ln_nondecreasing; lra).
      lra.
  - rewrite (f_right x H1), (f_right y) by lra.
    apply ln_nondecreasing; lra.
Qed.

Lemma f_nondecreasing_witness : f (-1) <= f 20.
Proof.
  apply (f_nondecreasing (-1) 20). lra.
Defined.

Lemma ln_lt_linear (x : R) : 0 < x -> x <> e -> ln x < linear x.
Proof.
  intros Hx Hne. pose proof e_pos as He. rewrite linear_div.
  apply exp_lt_inv. rewrite exp_ln by exact Hx.
  assert (Hu : x / e - 1 <> 0).
  { intros Hu. apply Hne.
    assert (Hx' : x / e = 1) by lra.
    apply (Rmult_eq_compat_r e) in Hx'.
    unfold Rdiv in Hx'. rewrite Rmult_assoc, Rinv_l in Hx' by lra. lra. }
  pose proof (exp_ineq1 _ Hu) as Hexp.
  replace (exp (x / e)) with (e * exp (x / e - 1))
    by (unfold e at 1; rewrite <- exp_plus; f_equal; ring).
  assert (Hxe : x = e * (x / e)) by (field; lra).
  rewrite Hxe at 1. apply Rmult_lt_compat_l; [exact He|]. lra.
Qed.

Lemma ln_le_linear (x : R) : 0 < x -> ln x <= linear x.
Proof.
  intros Hx. pose proof e_pos as He.
  destruct (Req_dec_T x e) as [->|Hne].
  - rewrite ln_e, linear_div. right. field. lra.
  - left. apply ln_lt_linear; assumption.
Qed.

Lemma ln_eq_linear (x : R) : 0 < x -> ln x = linear x -> x = e.
Proof.
  intros Hx Heq.
  destruct (Req_dec_T x e) as [->|Hne]; [reflexivity|exfalso].
  pose proof (ln_lt_linear x Hx Hne). lra.
Qed.

(** X3: in exact arithmetic, on [x >= 0] the piecewise payoff never
    exceeds the line of slope [1/e] that its linear branch follows, and it
    equals that line exactly on [[0, e]]: beyond [e] the logarithmic branch
    lies strictly below it. *)
Theorem payoff_below_linear (x : R) :
  0 <= x -> f x <= linear x /\ (f x = linear x <-> x <= e).
Proof.
  intros Hx. pose proof e_pos as He.
  destruct (Rlt_le_dec x e) as [Hlt|Hge].
  - rewrite f_middle by lra. split; [lra|]. split; intros _; [lra|reflexivity].
  - rewrite f_right by exact Hge. split; [apply ln_le_linear; lra|]. split.
    + intros Heq. apply ln_eq_linear in Heq; lra.
    + intros Hle. assert (x = e) as -> by lra.
      rewrite ln_e, linear_div. field. lra.
Qed.

Lemma payoff_below_linear_witness :
  f 20 <= linear 20 /\ (f 20 = linear 20 <-> 20 <= e).
Proof.
  apply (payoff_below_linear 20). lra.
Defined.

(** ** The sample grid as a whole *)

Lemma x2_le_last : Forall (fun x => x <= e * 199 / 200) x2.
Proof.
  pose proof e_pos as He.
  apply Forall_forall. apply (In_nth_lt _ 0). intros i Hi.
  rewrite x2_length in Hi. unfold x2. rewrite linspace_nth by exact Hi.
  unfold divisor. rewrite INR_200.
  assert (Hi' : INR i <= 199).
  { rewrite <- INR_199. apply le_INR. lia. }
  assert (Hs : 0 < (e - 0) / 200) by lra.
  nra.
Qed.

(** X4: the 900 samples of the three grids, read left to right, are in
    non-decreasing order, start at the left axis limit, end at the right
    axis limit and all lie within the shown x-domain. *)
Theorem grid_spans_shown_domain :
  length (x1 ++ x2 ++ x3) = 900%nat /\
  nondecreasing (x1 ++ x2 ++ x3) /\
  nth 0 (x1 ++ x2 ++ x3) 0 = IZR (fst xlim) /\
  last (x1 ++ x2 ++ x3) 0 = IZR (snd xlim) /\
  Forall (fun x => IZR (fst xlim) <= x <= IZR (snd xlim)) (x1 ++ x2 ++ x3).
Proof.
  pose proof x1_range as R1. pose proof x2_range as R2.
  pose proof x3_range as R3. pose proof e_lt_20 as He20.
  pose proof e_pos as He.
  assert (Hlen : length (x1 ++ x2 ++ x3) = 900%nat)
    by (rewrite !length_app, x1_length, x2_length, x3_length; reflexivity).
  split; [exact Hlen|]. split; [|split; [|split]].
  - rewrite Forall_forall in R1, R2, R3.
    apply nondecreasing_app; [|apply nondecreasing_app|].
    + apply linspace_nondecreasing. lra.
    + apply linspace_nondecreasing. lra.
    + apply linspace_nondecreasing. lra.
    + intros u v Hu Hv. pose proof (R2 u Hu). pose proof (R3 v Hv). lra.
    + intros u v Hu Hv. pose proof (R1 u Hu).
      apply in_app_or in Hv. destruct Hv as [Hv|Hv].
      * pose proof (R2 v Hv). lra.
      * pose proof (R3 v Hv). lra.
  - rewrite app_nth1 by (rewrite x1_length; lia).
    unfold x1. rewrite linspace_first by lia. reflexivity.
  - rewrite last_nth, Hlen.
    rewrite app_nth2 by (rewrite x1_length; lia).
    rewrite app_nth2 by (rewrite x1_length, x2_length; lia).
    rewrite x1_length, x2_length.
    pose proof x3_last as Hl. rewrite last_nth, x3_length in Hl.
    exact Hl.
  - repeat (apply Forall_app; split).
    + eapply Forall_impl; [|exact R1]. simpl. intros x Hx. lra.
    + eapply Forall_impl; [|exact R2]. simpl. intros x Hx. lra.
    + eapply Forall_impl; [|exact R3]. simpl. intros x Hx. lra.
Qed.

(** X5: the curve of the second [plt.plot] call ends at
    [(e * 199 / 200, 199 / 200)] and the curve of the third starts at
    [(e, 1)]; no grid holds a sample strictly between these two abscissas,
    so the two curves do not share a point (unlike the first two, which
    meet at [(0, 0)]). *)
Theorem gap_between_linear_and_log :
  last x2 0 = e * 199 / 200 /\ last y2 0 = 199 / 200 /\
  nth 0 x3 0 = e /\ nth_error y3 0 = Some (inr 1) /\
  e * 199 / 200 < e /\
  Forall (fun x => x <= e * 199 / 200 \/ e <= x) (x1 ++ x2 ++ x3).
Proof.
  pose proof e_pos as He.
  split; [exact x2_last|]. split; [exact y2_last|].
  split; [exact x3_first|]. split; [|split; [lra|]].
  - rewrite y3_values, !nth_error_map.
    rewrite (nth_error_nth' x3 0) by (rewrite x3_length; lia).
    rewrite x3_first. simpl. rewrite ln_e. reflexivity.
  - repeat (apply Forall_app; split).
    + eapply Forall_impl; [|exact x1_range]. simpl. intros x Hx. left. lra.
    + eapply Forall_impl; [|exact x2_le_last]. simpl. intros x Hx.
      left. exact Hx.
    + eapply Forall_impl; [|exact x3_range]. simpl. intros x Hx.
      right. lra.
Qed.

(** ** More on [linspace] *)

(** X6: a grid that excludes its right end is the grid with one more
    sample that includes it, without its last cell:
    [linspace(a, b, n, endpoint=False) = linspace(a, b, n + 1)[:-1]]. *)
Theorem linspace_open_is_closed_prefix (a b : R) (num : nat) :
  Numpy.linspace a b num false
  = removelast (Numpy.linspace a b (S num) true).
Proof.
  apply (nth_ext _ _ 0 0).
  - rewrite removelast_length, !linspace_length. lia.
  - intros i Hi. rewrite linspace_length in Hi.
    rewrite removelast_nth by (rewrite linspace_length; lia).
    rewrite !linspace_nth by lia.
    unfold divisor. rewrite Nat.sub_succ, Nat.sub_0_r. reflexivity.
Qed.

(** X7: with the right end included and at least two samples, swapping the
    bounds reverses the grid. *)
Theorem linspace_reverse (a b : R) (num : nat) :
  (2 <= num)%nat ->
  Numpy.linspace b a num true = rev (Numpy.linspace a b num true).
Proof.
  intros Hn. apply (nth_ext _ _ 0 0).
  - rewrite length_rev, !linspace_length. reflexivity.
  - intros i Hi. rewrite linspace_length in Hi.
    rewrite rev_nth by (rewrite linspace_length; exact Hi).
    rewrite linspace_length. rewrite !linspace_nth by lia.
    unfold divisor.
    assert (HR : INR (num - 1) <> 0) by (apply not_0_INR; lia).
    replace (num - S i)%nat with (num - 1 - i)%nat by lia.
    rewrite (minus_INR (num - 1) i) by lia.
    field. exact HR.
Qed.

Lemma linspace_reverse_witness :
  Numpy.linspace 1 0 2 true = rev (Numpy.linspace 0 1 2 true).
Proof.
  apply (linspace_reverse 0 1 2). lia.
Defined.

(** X8: for [a <= b] no sample leaves the interval: every cell of the grid
    lies in [[a, b]], whatever the sample count and the endpoint flag. *)
Theorem linspace_within_bounds (a b : R) (num : nat) (endpoint : bool) :
  a <= b -> Forall (fun x => a <= x <= b) (Numpy.linspace a b num endpoint).
Proof.
  intros Hab. apply Forall_forall. intros x Hx. split.
  - apply (linspace_ge_start a b num endpoint Hab x Hx).
  - apply (linspace_le_stop a b num endpoint Hab x Hx).
Qed.

Lemma linspace_within_bounds_witness :
  Forall (fun x => 0 <= x <= 1) (Numpy.linspace 0 1 3 false).
Proof.
  apply (linspace_within_bounds 0 1 3 false). lra.
Defined.

(** ** More on [arange] *)

Lemma lt_Qceiling (k : Z) (q : Q) :
  (k < Qceiling q)%Z <-> (inject_Z k < q)%Q.
Proof.
  split; intros H.
  - apply Qle_lt_trans with (inject_Z (Qceiling q - 1)).
    + rewrite <- Zle_Qle. lia.
    + apply Qceiling_lt.
  - rewrite Zlt_Qlt. apply Qlt_le_trans with q; [exact H|].
    apply Qle_ceiling.
Qed.

Lemma lt_Qdiv (a b c : Q) : (0 < c)%Q -> (a < b / c)%Q <-> (a * c < b)%Q.
Proof.
  intros Hc. split; intros H.
  - apply (Qmult_lt_r _ _ c Hc) in H.
    assert (Hd : (b / c * c == b)%Q).
    { field. intros Hz. rewrite Hz in Hc. discriminate. }
    rewrite Hd in H. exact H.
  - apply Qlt_shift_div_l; assumption.
Qed.

Lemma arange_count (start stop step : Z) (i : nat) :
  (0 < step)%Z ->
  (i < Z.to_nat (Qceiling (inject_Z (stop - start) / inject_Z step)))%nat
  <-> (start + Z.of_nat i * step < stop)%Z.
Proof.
  intros Hs.
  assert (Hq : (0 < inject_Z step)%Q) by (unfold Qlt; simpl; lia).
  pose proof (lt_Qceiling (Z.of_nat i)
                (inject_Z (stop - start) / inject_Z step)) as Hc.
  rewrite (lt_Qdiv _ _ _ Hq), <- inject_Z_mult, <- Zlt_Qlt in Hc.
  lia.
Qed.

(** X9: for arguments of magnitude at most 2^31, where 64-bit integers
    do not overflow and the length is computed exactly, [np.arange] on
    integers with a positive step returns exactly the values of
    [[start, stop)] that are congruent to [start] modulo [step], and the
    value after the last one would reach [stop]. *)
Theorem arange_members (start stop step : Z) :
  (-2147483648 <= start <= 2147483648)%Z ->
  (-2147483648 <= stop <= 2147483648)%Z ->
  (0 < step <= 2147483648)%Z ->
  exists l,
    Numpy.arange start stop step = Some l /\
    (forall x, In x l <->
       (start <= x < stop)%Z /\ ((x - start) mod step = 0)%Z) /\
    (stop <= start + Z.of_nat (length l) * step)%Z.
Proof.
  intros _ _ [Hs _]. unfold Numpy.arange.
  destruct (Z.eqb_spec step 0) as [Hz|_]; [lia|].
  eexists. split; [reflexivity|]. split.
  - intros x. rewrite in_map_iff. split.
    + intros (i & <- & Hi). apply in_seq in Hi.
      assert (Hi' : (start + Z.of_nat i * step < stop)%Z)
        by (apply arange_count; [exact Hs|lia]).
      split; [nia|].
      replace (start + Z.of_nat i * step - start)%Z
        with (Z.of_nat i * step)%Z by ring.
      apply Z.mod_mul. lia.
    + intros [[Hlo Hhi] Hmod].
      apply Z.mod_divide in Hmod; [|lia]. destruct Hmod as [k Hk].
      assert (Hk0 : (0 <= k)%Z) by nia.
      exists (Z.to_nat k). split; [rewrite Z2Nat.id by exact Hk0; lia|].
      apply in_seq. split; [lia|]. simpl.
      apply arange_count; [exact Hs|].
      rewrite Z2Nat.id by exact Hk0. lia.
  - rewrite length_map, length_seq.
    set (n := Z.to_nat _).
    pose proof (arange_count start stop step n Hs) as Hn.
    fold n in Hn. destruct (Z.lt_ge_cases (start + Z.of_nat n * step) stop) as [Hlt|Hge];
      [apply Hn in Hlt; lia|exact Hge].
Qed.

Lemma arange_members_witness :
  exists l,
    Numpy.arange (-20) 21 2 = Some l /\
    (forall x, In x l <->
       (-20 <= x < 21)%Z /\ ((x - -20) mod 2 = 0)%Z) /\
    (21 <= -20 + Z.of_nat (length l) * 2)%Z.
Proof.
  apply (arange_members (-20) 21 2); lia.
Defined.


(** X10: a zero step is an error, and with a positive step an empty range
    ([stop <= start]) gives the empty array. *)
Theorem arange_edge_cases (start stop step : Z) :
  Numpy.arange start stop 0 = None /\
  ((0 < step)%Z -> (stop <= start)%Z ->
   Numpy.arange start stop step = Some []).
Proof.
  split; [reflexivity|]. intros Hs Hle. unfold Numpy.arange.
  destruct (Z.eqb_spec step 0) as [Hz|_]; [lia|].
  pose proof (arange_count start stop step 0 Hs) as H0.
  destruct (Z.to_nat _) as [|n]; [reflexivity|lia].
Qed.

Lemma arange_Q_count (start stop step : Q) (i : nat) :
  (0 < step)%Q ->
  (i < Z.to_nat (Qceiling ((stop - start) / step)))%nat
  <-> (start + inject_Z (Z.of_nat i) * step < stop)%Q.
Proof.
  intros Hs.
  pose proof (lt_Qceiling (Z.of_nat i) ((stop - start) / step)) as Hc.
  rewrite (lt_Qdiv _ _ _ Hs) in Hc.
  split; intros H.
  - assert (Hi : (Z.of_nat i < Qceiling ((stop - start) / step))%Z) by lia.
    apply Hc in Hi. Lqa.lra.
  - assert (Hi : (inject_Z (Z.of_nat i) * step < stop - start)%Q) by Lqa.lra.
    apply Hc in Hi. lia.
Qed.

Lemma arange_Q_within_exact (start stop step : Q) :
  (0 < step)%Q ->
  exists l,
    Numpy.arange_Q start stop step = Some l /\
    Forall (fun q => start <= q < stop)%Q l /\
    (stop <= start + inject_Z (Z.of_nat (length l)) * step)%Q.
Proof.
  intros Hs. unfold Numpy.arange_Q.
  destruct (Qeq_bool step 0) eqn:Hz.
  { apply Qeq_bool_eq in Hz. rewrite Hz in Hs. discriminate. }
  eexists. split; [reflexivity|]. split.
  - apply Forall_forall. intros q Hq.
    apply in_map_iff in Hq. destruct Hq as (i & <- & Hi).
    apply in_seq in Hi. rewrite Qred_correct.
    assert (Hlt : (start + inject_Z (Z.of_nat i) * step < stop)%Q)
      by (apply arange_Q_count; [exact Hs|lia]).
    split; [|exact Hlt].
    assert (H0 : (0 <= inject_Z (Z.of_nat i) * step)%Q).
    { apply Qmult_le_0_compat; [|apply Qlt_le_weak, Hs].
      unfold Qle. simpl. lia. }
    Lqa.lra.
  - rewrite length_map, length_seq.
    set (n := Z.to_nat _).
    pose proof (arange_Q_count start stop step n Hs) as Hn. fold n in Hn.
    apply Qnot_lt_le. intros Hlt. apply Hn in Hlt. lia.
Qed.

Lemma dyadic_pos (s : Z) (k : nat) : (0 < s)%Z -> (0 < dyadic s k)%Q.
Proof.
  intros Hs. unfold dyadic.
  assert (Hp : (0 < 2 ^ Z.of_nat k)%Z) by (apply Z.pow_pos_nonneg; lia).
  apply Qlt_shift_div_l.
  - unfold Qlt. simpl. lia.
  - unfold Qlt. simpl. lia.
Qed.

(** X11: for arguments [a / 2^k], [b / 2^k] and a positive step [s / 2^k]
    with numerators of magnitude at most 2^31 and [k <= 30], which
    [float64] holds and combines exactly, every value [np.arange]
    generates lies in [[start, stop)], so [stop] itself is never a tick,
    and the value after the last one would reach [stop]. *)
Theorem arange_Q_within (a b s : Z) (k : nat) :
  (k <= 30)%nat ->
  (-2147483648 <= a <= 2147483648)%Z ->
  (-2147483648 <= b <= 2147483648)%Z ->
  (0 < s <= 2147483648)%Z ->
  exists l,
    Numpy.arange_Q (dyadic a k) (dyadic b k) (dyadic s k) = Some l /\
    Forall (fun q => dyadic a k <= q < dyadic b k)%Q l /\
    (dyadic b k
     <= dyadic a k + inject_Z (Z.of_nat (length l)) * dyadic s k)%Q.
Proof.
  intros _ _ _ [Hs _].
  apply arange_Q_within_exact, dyadic_pos, Hs.
Qed.

Lemma arange_Q_within_witness :
  exists l,
    Numpy.arange_Q (dyadic (-10) 1) (dyadic 10 1) (dyadic 1 1) = Some l /\
    Forall (fun q => dyadic (-10) 1 <= q < dyadic 10 1)%Q l /\
    (dyadic 10 1
     <= dyadic (-10) 1 + inject_Z (Z.of_nat (length l)) * dyadic 1 1)%Q.
Proof.
  apply (arange_Q_within (-10) 10 1 1); lia.
Defined.

(** ** Ticks, limits and reference lines *)

(** X13: every x tick lies within the x limits and every y tick within the
    y limits, so no tick is cut off; and the two reference lines at 0 sit
    on a tick of their axis. *)
Theorem ticks_within_limits :
  exists xs ys,
    xticks = Some xs /\ yticks = Some ys /\
    Forall (fun t => (fst xlim <= t <= snd xlim)%Z) xs /\
    Forall (fun q => (inject_Z (fst ylim) <= q <= inject_Z (snd ylim))%Q) ys /\
    In axvline xs /\ In (inject_Z axhline) ys.
Proof.
  eexists. eexists.
  split; [vm_compute; reflexivity|].
  split; [vm_compute; reflexivity|].
  split; [|split; [|split]].
  - repeat (constructor; [simpl; lia|]). constructor.
  - repeat (constructor; [split; discriminate|]). constructor.
  - simpl. tauto.
  - vm_compute. tauto.
Qed.
